(** * ProDBG: [core/math.h] and [ui/MainWindow.h]

    A shallow embedding of the two headers:

    - [core/math.h] declares the plain structures [Rect] (four [int] fields)
      and [FloatRect] (four [float] fields) and the function-like macro
      [int_min(a, b)], whose replacement text is [((a < b) ? b : a)];
    - [ui/MainWindow.h] declares, in namespace [prodbg], the structure
      [PluginInfo] and the class [MainWindow].  Its member functions are only
      declared there, so nothing but the data members is embedded.

    A C [int] is a [Z] inside [INT_MIN .. INT_MAX]; a C [float] is an IEEE-754
    binary32 datum, a [spec_float] accepted by [valid_binary 24 128]. *)

From Stdlib Require Import ZArith NArith Bool Lia.
From Stdlib Require Import Floats.SpecFloat.

Local Open Scope Z_scope.

(* ------------------------------------------------------------------------- *)
(** * Scalar types and the two C operators the macro is made of              *)
(* ------------------------------------------------------------------------- *)

Module CTypes.

Definition INT_MIN : Z := - 2 ^ 31.
Definition INT_MAX : Z := 2 ^ 31 - 1.

(** The values of type [int]. *)
Definition is_int (z : Z) : bool := (INT_MIN <=? z) && (z <=? INT_MAX).

(** The values of type [float]: binary32 has a 24-bit significand and
    exponents below 128. *)
Definition float : Type := spec_float.
Definition is_float (f : float) : bool := valid_binary 24 128 f.

(** [a < b] on two [int] operands has type [int] and value 1 or 0. *)
Definition c_lt (a b : Z) : Z := if a <? b then 1 else 0.

(** [c ? t : e] selects [t] when [c] compares unequal to 0, [e] otherwise. *)
Definition c_cond {A : Type} (c : Z) (t e : A) : A :=
  if c =? 0 then e else t.

(** A C pointer to [T]: null or an address.  The pointee type is a phantom
    index: a pointer to an incomplete type carries no value of that type. *)
Variant ptr (T : Type) : Type :=
  | nullptr
  | addr (a : N).

Arguments nullptr {T}.
Arguments addr {T} a.

End CTypes.

Import CTypes.

(* ------------------------------------------------------------------------- *)
(** * core/math.h                                                            *)
(* ------------------------------------------------------------------------- *)

(** [typedef struct Rect { int x; int y; int width; int height; } Rect;] *)
Record Rect : Type := mkRect {
  Rect_x : Z;
  Rect_y : Z;
  Rect_width : Z;
  Rect_height : Z
}.

(** [typedef struct FloatRect { float x; float y; float width; float height; }
    FloatRect;] *)
Record FloatRect : Type := mkFloatRect {
  FloatRect_x : float;
  FloatRect_y : float;
  FloatRect_width : float;
  FloatRect_height : float
}.

(** Membership in the C types: every field is a value of its declared type.
    The declarations state nothing else. *)
Definition Rect_valid (r : Rect) : bool :=
  is_int (Rect_x r) && is_int (Rect_y r) &&
  is_int (Rect_width r) && is_int (Rect_height r).

Definition FloatRect_valid (r : FloatRect) : bool :=
  is_float (FloatRect_x r) && is_float (FloatRect_y r) &&
  is_float (FloatRect_width r) && is_float (FloatRect_height r).

(** Member assignment [r.f = v]: one field replaced, the others kept. *)
Definition Rect_set_x (r : Rect) (v : Z) : Rect :=
  mkRect v (Rect_y r) (Rect_width r) (Rect_height r).
Definition Rect_set_y (r : Rect) (v : Z) : Rect :=
  mkRect (Rect_x r) v (Rect_width r) (Rect_height r).
Definition Rect_set_width (r : Rect) (v : Z) : Rect :=
  mkRect (Rect_x r) (Rect_y r) v (Rect_height r).
Definition Rect_set_height (r : Rect) (v : Z) : Rect :=
  mkRect (Rect_x r) (Rect_y r) (Rect_width r) v.

Definition FloatRect_set_x (r : FloatRect) (v : float) : FloatRect :=
  mkFloatRect v (FloatRect_y r) (FloatRect_width r) (FloatRect_height r).
Definition FloatRect_set_y (r : FloatRect) (v : float) : FloatRect :=
  mkFloatRect (FloatRect_x r) v (FloatRect_width r) (FloatRect_height r).
Definition FloatRect_set_width (r : FloatRect) (v : float) : FloatRect :=
  mkFloatRect (FloatRect_x r) (FloatRect_y r) v (FloatRect_height r).
Definition FloatRect_set_height (r : FloatRect) (v : float) : FloatRect :=
  mkFloatRect (FloatRect_x r) (FloatRect_y r) (FloatRect_width r) v.

(** The two ways C builds a structure from four values: the aggregate
    initialiser [{ x, y, width, height }], which is the constructor, and four
    member assignments on an object [r0] of arbitrary previous contents. *)
Definition Rect_assign (r0 : Rect) (x y width height : Z) : Rect :=
  Rect_set_height (Rect_set_width (Rect_set_y (Rect_set_x r0 x) y) width) height.

Definition FloatRect_assign (r0 : FloatRect) (x y width height : float)
  : FloatRect :=
  FloatRect_set_height
    (FloatRect_set_width (FloatRect_set_y (FloatRect_set_x r0 x) y) width)
    height.

(** [#define int_min(a, b) ((a < b) ? b : a)], on two [int] operands. *)
Definition int_min (a b : Z) : Z := c_cond (c_lt a b) b a.

(** The binary32 datum -1.0f, used to exhibit a negative extent. *)
Definition float_minus_one : float := S754_finite true 8388608 (-23).
Definition float_zero : float := S754_zero false.

(* ------------------------------------------------------------------------- *)
(** * ui/MainWindow.h                                                        *)
(* ------------------------------------------------------------------------- *)

Module prodbg.
Section Declarations.

(** [struct Plugin; struct Session; struct MenuDescriptor;] and the Qt classes
    [QMenu], [QSignalMapper], [QTimer] are forward declarations; [QMainWindow]
    is the toolkit's base class.  None is defined in these headers. *)
Variables Plugin Session QMenu QSignalMapper QTimer QMainWindow : Type.

(** [struct PluginInfo { Plugin* plugin; int menuItem; };] *)
Record PluginInfo : Type := mkPluginInfo {
  plugin : ptr Plugin;
  menuItem : Z
}.

(** [class MainWindow : public QMainWindow], data members in declaration
    order, after the base-class subobject. *)
Record MainWindow : Type := mkMainWindow {
  base_QMainWindow : QMainWindow;
  m_pluginMenu : ptr QMenu;
  m_timer : ptr QTimer;
  m_signalMapper : ptr QSignalMapper;
  m_pluginInfoArray : ptr PluginInfo;
  m_remoteSession : ptr Session;
  m_activeSession : ptr Session;
  m_pluginCount : Z
}.

(** The state as the specification groups it: the active session, the remote
    session, the plugin-info collection with its count, and the three toolkit
    objects (menu, timer, signal mapper). *)
Definition MainWindow_components : Type :=
  ptr Session * ptr Session * (ptr PluginInfo * Z) *
  (ptr QMenu * ptr QTimer * ptr QSignalMapper).

Definition components_of (w : MainWindow) : MainWindow_components :=
  (m_activeSession w, m_remoteSession w,
   (m_pluginInfoArray w, m_pluginCount w),
   (m_pluginMenu w, m_timer w, m_signalMapper w)).

Definition of_components (b : QMainWindow) (c : MainWindow_components)
  : MainWindow :=
  let '(active, remote, (arr, count), (menu, timer, mapper)) := c in
  mkMainWindow b menu timer mapper arr remote active count.

End Declarations.

Arguments mkPluginInfo {Plugin} plugin menuItem.
Arguments plugin {Plugin} p.
Arguments menuItem {Plugin} p.
Arguments mkMainWindow {Plugin Session QMenu QSignalMapper QTimer QMainWindow}.
Arguments base_QMainWindow {Plugin Session QMenu QSignalMapper QTimer QMainWindow} m.
Arguments m_pluginMenu {Plugin Session QMenu QSignalMapper QTimer QMainWindow} m.
Arguments m_timer {Plugin Session QMenu QSignalMapper QTimer QMainWindow} m.
Arguments m_signalMapper {Plugin Session QMenu QSignalMapper QTimer QMainWindow} m.
Arguments m_pluginInfoArray {Plugin Session QMenu QSignalMapper QTimer QMainWindow} m.
Arguments m_remoteSession {Plugin Session QMenu QSignalMapper QTimer QMainWindow} m.
Arguments m_activeSession {Plugin Session QMenu QSignalMapper QTimer QMainWindow} m.
Arguments m_pluginCount {Plugin Session QMenu QSignalMapper QTimer QMainWindow} m.
Arguments components_of {Plugin Session QMenu QSignalMapper QTimer QMainWindow} w.
Arguments of_components {Plugin Session QMenu QSignalMapper QTimer QMainWindow} b c.

End prodbg.

(* ------------------------------------------------------------------------- *)
(** * core/math.h: the macro applied to operand expressions                  *)
(* ------------------------------------------------------------------------- *)

(** [int_min] is a macro: its parameters [a] and [b] are replaced by the
    operand expressions themselves, so in [((a < b) ? b : a)] each operand
    occurs twice.  An operand expression is a computation over the program
    state [St] that yields an [int]. *)
Module MacroExpr.
Section WithState.

Variable St : Type.

Definition expr : Type := St -> Z * St.

(** An operand without side effects. *)
Definition pure (v : Z) : expr := fun s => (v, s).

(** [a < b]: both operands are evaluated, in an order the language leaves
    open ([a_first] picks it), then compared. *)
Definition eval_lt (a_first : bool) (a b : expr) : St -> Z * St :=
  fun s =>
    if a_first
    then let (va, s1) := a s in let (vb, s2) := b s1 in (c_lt va vb, s2)
    else let (vb, s1) := b s in let (va, s2) := a s1 in (c_lt va vb, s2).

(** [((a < b) ? b : a)]: after the comparison the selected operand expression
    is evaluated, a second time, in the state the comparison left. *)
Definition int_min_expr (a_first : bool) (a b : expr) : expr :=
  fun s => let (c, s') := eval_lt a_first a b s in c_cond c b a s'.

End WithState.

Arguments pure {St} v.
Arguments eval_lt {St} a_first a b.
Arguments int_min_expr {St} a_first a b.


(** The operand [i++] on an [int] variable [i], the state being the value of
    [i]: it yields the old value and stores the successor. *)
Definition post_inc : expr Z := fun i => (i, i + 1).

End MacroExpr.

(** [a < b] on two [float] operands: 1 when [a] is below [b], 0 otherwise,
    also when either operand is a NaN. *)
Definition c_flt (a b : float) : Z := if SFltb a b then 1 else 0.

(** The same replacement text [((a < b) ? b : a)] on two [float] operands,
    such as the fields of a [FloatRect]. *)
Definition int_min_on_float (a b : float) : float := c_cond (c_flt a b) b a.

(* ------------------------------------------------------------------------- *)
(** * Facts about the scalar operators                                       *)
(* ------------------------------------------------------------------------- *)

Lemma is_int_iff (z : Z) : is_int z = true <-> INT_MIN <= z <= INT_MAX.
Proof.
  unfold is_int. rewrite andb_true_iff, !Z.leb_le. reflexivity.
Qed.

Lemma c_lt_true (a b : Z) : a < b -> c_lt a b = 1.
Proof.
  intros Hlt. unfold c_lt. apply Z.ltb_lt in Hlt. now rewrite Hlt.
Qed.

Lemma c_lt_false (a b : Z) : b <= a -> c_lt a b = 0.
Proof.
  intros Hge. unfold c_lt. apply Z.ltb_ge in Hge. now rewrite Hge.
Qed.

Lemma int_min_lt (a b : Z) : a < b -> int_min a b = b.
Proof.
  intros Hlt. unfold int_min. now rewrite (c_lt_true _ _ Hlt).
Qed.

Lemma int_min_ge (a b : Z) : b <= a -> int_min a b = a.
Proof.
  intros Hge. unfold int_min. now rewrite (c_lt_false _ _ Hge).
Qed.

(** The macro does no arithmetic, so its value stays in the range of [int]. *)
Lemma int_min_in_range (a b : Z) :
  is_int a = true -> is_int b = true -> is_int (int_min a b) = true.
Proof.
  intros Ha Hb. destruct (Z.lt_ge_cases a b) as [Hlt | Hge].
  - now rewrite int_min_lt.
  - now rewrite int_min_ge.
Qed.

(* ------------------------------------------------------------------------- *)
(** * core/math.h: the macro [int_min]                                       *)
(* ------------------------------------------------------------------------- *)

(** C1 (the code departs from it): for [a < b] the macro is expected to yield the
    smaller operand [a].  At [a = 1], [b = 2] the replacement text
    [((1 < 2) ? 2 : 1)] evaluates to 2, which is not the smaller operand 1. *)
Theorem int_min_1_2_is_larger :
  int_min 1 2 = 2 /\ Z.min 1 2 = 1 /\ int_min 1 2 <> Z.min 1 2.
Proof.
  repeat split; try reflexivity. vm_compute. discriminate.
Qed.

(** C2: for all [int] operands [int_min(a, b)] is the larger of the two: it
    equals [max a b], it is [b] when [a < b] and [a] otherwise. *)
Theorem int_min_is_max (a b : Z) :
  int_min a b = Z.max a b /\
  (a < b -> int_min a b = b) /\
  (~ a < b -> int_min a b = a).
Proof.
  split; [| split].
  - destruct (Z.lt_ge_cases a b) as [Hlt | Hge].
    + rewrite int_min_lt by assumption. symmetry. apply Z.max_r. lia.
    + rewrite int_min_ge by assumption. symmetry. apply Z.max_l. lia.
  - apply int_min_lt.
  - intros Hn. apply int_min_ge. lia.
Qed.

Lemma int_min_is_max_witness :
  int_min 3 7 = Z.max 3 7 /\ int_min 3 7 = 7 /\ int_min 7 3 = 7.
Proof.
  split; [| split].
  - exact (proj1 (int_min_is_max 3 7)).
  - apply (proj1 (proj2 (int_min_is_max 3 7))). lia.
  - apply (proj2 (proj2 (int_min_is_max 7 3))). lia.
Defined.

(** C8: the value of [int_min(a, b)] is one of its two operands. *)
Theorem int_min_is_operand (a b : Z) : int_min a b = a \/ int_min a b = b.
Proof.
  unfold int_min, c_cond.
  case (c_lt a b =? 0); [left | right]; reflexivity.
Qed.

(** C9: [int_min(a, b) = int_min(b, a)] for all [int] operands. *)
Theorem int_min_comm (a b : Z) : int_min a b = int_min b a.
Proof.
  destruct (Z.lt_total a b) as [Hlt | [Heq | Hgt]].
  - rewrite (int_min_lt a b Hlt). rewrite int_min_ge; [reflexivity | lia].
  - now subst b.
  - rewrite (int_min_lt b a Hgt). rewrite int_min_ge; [reflexivity | lia].
Qed.

(** C10: [int_min(a, a) = a]; on equal operands the macro yields the minimum. *)
Theorem int_min_idem (a : Z) : int_min a a = a /\ int_min a a = Z.min a a.
Proof.
  assert (H : int_min a a = a) by (apply int_min_ge; apply Z.le_refl).
  split; [exact H |]. rewrite H. symmetry. apply Z.min_id.
Qed.

(* ------------------------------------------------------------------------- *)
(** * core/math.h: [Rect] and [FloatRect]                                    *)
(* ------------------------------------------------------------------------- *)

Lemma Rect_assign_init (r0 : Rect) (x y w h : Z) :
  Rect_assign r0 x y w h = mkRect x y w h.
Proof. reflexivity. Qed.

Lemma FloatRect_assign_init (r0 : FloatRect) (x y w h : float) :
  FloatRect_assign r0 x y w h = mkFloatRect x y w h.
Proof. reflexivity. Qed.

Lemma Rect_valid_iff (r : Rect) :
  Rect_valid r = true <->
  is_int (Rect_x r) = true /\ is_int (Rect_y r) = true /\
  is_int (Rect_width r) = true /\ is_int (Rect_height r) = true.
Proof.
  unfold Rect_valid. rewrite !andb_true_iff. tauto.
Qed.

Lemma FloatRect_valid_iff (r : FloatRect) :
  FloatRect_valid r = true <->
  is_float (FloatRect_x r) = true /\ is_float (FloatRect_y r) = true /\
  is_float (FloatRect_width r) = true /\ is_float (FloatRect_height r) = true.
Proof.
  unfold FloatRect_valid. rewrite !andb_true_iff. tauto.
Qed.

(** C3: a [Rect] or [FloatRect] built from [x], [y], [width], [height], by an
    aggregate initialiser or by four member assignments on any previous
    object, gives back exactly those four values when its fields are read. *)
Theorem rect_field_roundtrip :
  (forall (r0 : Rect) (x y w h : Z) (r : Rect),
      r = mkRect x y w h \/ r = Rect_assign r0 x y w h ->
      Rect_x r = x /\ Rect_y r = y /\ Rect_width r = w /\ Rect_height r = h) /\
  (forall (r0 : FloatRect) (x y w h : float) (r : FloatRect),
      r = mkFloatRect x y w h \/ r = FloatRect_assign r0 x y w h ->
      FloatRect_x r = x /\ FloatRect_y r = y /\
      FloatRect_width r = w /\ FloatRect_height r = h).
Proof.
  split; intros r0 x y w h r [-> | ->]; repeat split.
Qed.

Lemma rect_field_roundtrip_witness :
  (let r := Rect_assign (mkRect 9 9 9 9) 1 2 (-3) 4 in
   Rect_x r = 1 /\ Rect_y r = 2 /\ Rect_width r = -3 /\ Rect_height r = 4) /\
  (let r := mkFloatRect float_zero S754_nan float_minus_one (S754_infinity false) in
   FloatRect_x r = float_zero /\ FloatRect_y r = S754_nan /\
   FloatRect_width r = float_minus_one /\
   FloatRect_height r = S754_infinity false).
Proof.
  split.
  - apply (proj1 rect_field_roundtrip (mkRect 9 9 9 9)). right. reflexivity.
  - apply (proj2 rect_field_roundtrip (mkFloatRect float_zero float_zero float_zero float_zero)).
    left. reflexivity.
Defined.

(** C4: [Rect] and [FloatRect] carry no invariant.  Whatever four values of
    the field type are supplied, of any sign, the structure built from them is
    a value of the type, and reading [width] and [height] returns them as
    supplied, also after a member assignment: nothing rejects or normalises
    a negative extent.  Values with negative [width] and [height] exist in
    both types. *)
Theorem rect_no_invariant (x y w h : Z) (fx fy fw fh : float) :
  is_int x = true -> is_int y = true -> is_int w = true -> is_int h = true ->
  is_float fx = true -> is_float fy = true ->
  is_float fw = true -> is_float fh = true ->
  (Rect_valid (mkRect x y w h) = true /\
   Rect_width (mkRect x y w h) = w /\ Rect_height (mkRect x y w h) = h) /\
  (FloatRect_valid (mkFloatRect fx fy fw fh) = true /\
   FloatRect_width (mkFloatRect fx fy fw fh) = fw /\
   FloatRect_height (mkFloatRect fx fy fw fh) = fh) /\
  (forall (r0 : Rect) (f0 : FloatRect),
      Rect_width (Rect_set_width r0 w) = w /\
      Rect_height (Rect_set_height r0 h) = h /\
      FloatRect_width (FloatRect_set_width f0 fw) = fw /\
      FloatRect_height (FloatRect_set_height f0 fh) = fh) /\
  (exists r : Rect,
      Rect_valid r = true /\ Rect_width r < 0 /\ Rect_height r < 0) /\
  (exists r : FloatRect,
      FloatRect_valid r = true /\
      SFltb (FloatRect_width r) float_zero = true /\
      SFltb (FloatRect_height r) float_zero = true).
Proof.
  intros Hx Hy Hw Hh Hfx Hfy Hfw Hfh.
  split; [| split; [| split; [| split]]].
  - split; [| split; reflexivity].
    apply Rect_valid_iff. cbn. auto.
  - split; [| split; reflexivity].
    apply FloatRect_valid_iff. cbn. auto.
  - intros r0 f0. repeat split.
  - exists (mkRect 0 0 (-1) (-1)). repeat split.
  - exists (mkFloatRect float_zero float_zero float_minus_one float_minus_one).
    repeat split.
Qed.

Lemma rect_no_invariant_witness :
  (Rect_valid (mkRect 10 20 (-640) (-480)) = true /\
   Rect_width (mkRect 10 20 (-640) (-480)) = -640 /\
   Rect_height (mkRect 10 20 (-640) (-480)) = -480) /\
  (FloatRect_valid
     (mkFloatRect float_zero float_zero float_minus_one float_minus_one) = true /\
   FloatRect_width
     (mkFloatRect float_zero float_zero float_minus_one float_minus_one)
   = float_minus_one /\
   FloatRect_height
     (mkFloatRect float_zero float_zero float_minus_one float_minus_one)
   = float_minus_one).
Proof.
  pose proof (rect_no_invariant 10 20 (-640) (-480)
                float_zero float_zero float_minus_one float_minus_one
                eq_refl eq_refl eq_refl eq_refl
                eq_refl eq_refl eq_refl eq_refl) as [HR [HF _]].
  split; assumption.
Defined.

(** C5: every operation of [core/math.h] is total.  On operands of the
    declared types, building a [Rect] or a [FloatRect] (by initialiser or by
    member assignments) yields a value of the type, reading any field of such
    a value yields a value of the field type, and [int_min] yields an [int]:
    no operation has an input on which it has no result, and none leaves the
    range of its result type. *)
Theorem math_operations_total
  (a b x y w h : Z) (fx fy fw fh : float) (r : Rect) (f : FloatRect) :
  is_int a = true -> is_int b = true ->
  is_int x = true -> is_int y = true -> is_int w = true -> is_int h = true ->
  is_float fx = true -> is_float fy = true ->
  is_float fw = true -> is_float fh = true ->
  Rect_valid r = true -> FloatRect_valid f = true ->
  is_int (int_min a b) = true /\
  (Rect_valid (mkRect x y w h) = true /\
   Rect_valid (Rect_assign r x y w h) = true) /\
  (is_int (Rect_x r) = true /\ is_int (Rect_y r) = true /\
   is_int (Rect_width r) = true /\ is_int (Rect_height r) = true) /\
  (FloatRect_valid (mkFloatRect fx fy fw fh) = true /\
   FloatRect_valid (FloatRect_assign f fx fy fw fh) = true) /\
  (is_float (FloatRect_x f) = true /\ is_float (FloatRect_y f) = true /\
   is_float (FloatRect_width f) = true /\ is_float (FloatRect_height f) = true).
Proof.
  intros Ha Hb Hx Hy Hw Hh Hfx Hfy Hfw Hfh Hr Hf.
  assert (HR : Rect_valid (mkRect x y w h) = true)
    by (apply Rect_valid_iff; cbn; auto).
  assert (HF : FloatRect_valid (mkFloatRect fx fy fw fh) = true)
    by (apply FloatRect_valid_iff; cbn; auto).
  split; [now apply int_min_in_range |].
  split; [split; [exact HR | now rewrite Rect_assign_init] |].
  split; [now apply Rect_valid_iff |].
  split; [split; [exact HF | now rewrite FloatRect_assign_init] |].
  now apply FloatRect_valid_iff.
Qed.

Lemma math_operations_total_witness :
  is_int (int_min (-5) 2147483647) = true /\
  Rect_valid (Rect_assign (mkRect 0 0 (-1) (-1)) (-2147483648) 7 (-3) 0) = true /\
  is_float (FloatRect_y
              (mkFloatRect float_zero S754_nan float_minus_one
                           (S754_infinity true))) = true.
Proof.
  pose proof (math_operations_total (-5) 2147483647 (-2147483648) 7 (-3) 0
                float_zero float_minus_one S754_nan (S754_infinity false)
                (mkRect 0 0 (-1) (-1))
                (mkFloatRect float_zero S754_nan float_minus_one
                             (S754_infinity true))
                eq_refl eq_refl eq_refl eq_refl eq_refl eq_refl
                eq_refl eq_refl eq_refl eq_refl eq_refl eq_refl)
    as [H1 [[_ H2] [_ [_ [_ [H3 _]]]]]].
  repeat split; assumption.
Defined.

(* ------------------------------------------------------------------------- *)
(** * ui/MainWindow.h: [PluginInfo] and [MainWindow]                         *)
(* ------------------------------------------------------------------------- *)

Section MainWindowFacts.

Import prodbg.

Context {Plugin Session QMenu QSignalMapper QTimer QMainWindow : Type}.

(** C6: a [PluginInfo] is a pointer to a [Plugin] paired with an [int]
    [menuItem], and nothing else: both members are read back from a value
    built from them, and every [PluginInfo] is the value built from its own
    [plugin] and [menuItem].  The pointer is an address, so no [Plugin] object
    is part of the record. *)
Theorem PluginInfo_two_components :
  (forall (p : ptr Plugin) (m : Z),
      plugin (mkPluginInfo p m) = p /\ menuItem (mkPluginInfo p m) = m) /\
  (forall i : PluginInfo Plugin, i = mkPluginInfo (plugin i) (menuItem i)).
Proof.
  split.
  - intros p m. split; reflexivity.
  - intros [p m]. reflexivity.
Qed.

(** C7: beyond its [QMainWindow] base, the state of a [MainWindow] is the
    pointer to the active [Session], the separate pointer to the remote
    [Session], the pointer to the [PluginInfo] array with the [int] plugin
    count, and the pointers to the menu, the timer and the signal mapper: a
    window is rebuilt from its base and these components, and any choice of
    base and components is the state of exactly the window built from them. *)
Theorem MainWindow_state_components :
  (forall w : MainWindow Plugin Session QMenu QSignalMapper QTimer QMainWindow,
      of_components (base_QMainWindow w) (components_of w) = w) /\
  (forall (b : QMainWindow)
          (c : MainWindow_components Plugin Session QMenu QSignalMapper QTimer),
      base_QMainWindow (of_components b c) = b /\
      components_of (of_components b c) = c).
Proof.
  split.
  - intros w. destruct w. reflexivity.
  - intros b c.
    destruct c as [[[active remote] [arr count]] [[menu timer] mapper]].
    split; reflexivity.
Qed.

End MainWindowFacts.

(* ------------------------------------------------------------------------- *)
(** * core/math.h: further properties of [int_min]                           *)
(* ------------------------------------------------------------------------- *)

Lemma int_min_cases (a b : Z) :
  (a < b /\ int_min a b = b) \/ (b <= a /\ int_min a b = a).
Proof.
  destruct (Z.lt_ge_cases a b) as [Hlt | Hge]; [left | right]; split;
    auto using int_min_lt, int_min_ge.
Qed.

Lemma int_min_le_l (a b : Z) : a <= int_min a b.
Proof. destruct (int_min_cases a b) as [[H ->] | [H ->]]; lia. Qed.

Lemma int_min_le_r (a b : Z) : b <= int_min a b.
Proof. destruct (int_min_cases a b) as [[H ->] | [H ->]]; lia. Qed.

Lemma int_min_lub (a b c : Z) : a <= c -> b <= c -> int_min a b <= c.
Proof.
  intros Ha Hb. destruct (int_min_cases a b) as [[_ ->] | [_ ->]]; assumption.
Qed.

Create HintDb imin.
#[local] Hint Resolve int_min_le_l int_min_le_r int_min_lub Z.le_refl : imin.

Lemma int_min_le_trans_l (a b c : Z) : c <= a -> c <= int_min a b.
Proof. intros H. apply Z.le_trans with a; auto with imin. Qed.

Lemma int_min_le_trans_r (a b c : Z) : c <= b -> c <= int_min a b.
Proof. intros H. apply Z.le_trans with b; auto with imin. Qed.

#[local] Hint Resolve int_min_le_trans_l int_min_le_trans_r : imin.

(** X1: [int_min(a, b)] is never below either operand. *)
Theorem int_min_upper_bound (a b : Z) : a <= int_min a b /\ b <= int_min a b.
Proof. split; auto with imin. Qed.

(** X2: [int_min(a, b)] is the least value that bounds both operands from
    above: it is at most [c] exactly when both [a] and [b] are. *)
Theorem int_min_least_upper_bound (a b c : Z) :
  int_min a b <= c <-> a <= c /\ b <= c.
Proof.
  split.
  - intros H. split; eapply Z.le_trans; try exact H; auto with imin.
  - intros [Ha Hb]. auto with imin.
Qed.

(** X3: nested uses of the macro associate:
    [int_min(int_min(a, b), c) = int_min(a, int_min(b, c))]. *)
Theorem int_min_assoc (a b c : Z) :
  int_min (int_min a b) c = int_min a (int_min b c).
Proof.
  apply Z.le_antisymm; auto 6 with imin.
Qed.

(** X4: [int_min] is monotone in both operands. *)
Theorem int_min_monotone (a a' b b' : Z) :
  a <= a' -> b <= b' -> int_min a b <= int_min a' b'.
Proof.
  intros Ha Hb. apply int_min_lub.
  - apply int_min_le_trans_l. exact Ha.
  - apply int_min_le_trans_r. exact Hb.
Qed.

Lemma int_min_monotone_witness : int_min (-4) 2 <= int_min 0 3.
Proof.
  apply (int_min_monotone (-4) 0 2 3); lia.
Defined.

(** X5: on the range of [int], [INT_MIN] is neutral and [INT_MAX] absorbing
    for [int_min], on either side. *)
Theorem int_min_range_ends (a : Z) :
  is_int a = true ->
  int_min INT_MIN a = a /\ int_min a INT_MIN = a /\
  int_min INT_MAX a = INT_MAX /\ int_min a INT_MAX = INT_MAX.
Proof.
  intros Ha. apply is_int_iff in Ha. destruct Ha as [Hlo Hhi].
  repeat split; apply Z.le_antisymm; auto with imin.
Qed.

Lemma int_min_range_ends_witness :
  int_min INT_MIN (-7) = -7 /\ int_min (-7) INT_MIN = -7 /\
  int_min INT_MAX (-7) = INT_MAX /\ int_min (-7) INT_MAX = INT_MAX.
Proof.
  apply (int_min_range_ends (-7)). reflexivity.
Defined.

(** X6: [int_min(a, b)] and the true minimum split the two operands between
    them, so their sum is [a + b]; and [int_min(a, b)] is the minimum exactly
    when the operands are equal. *)
Theorem int_min_versus_min (a b : Z) :
  int_min a b + Z.min a b = a + b /\
  (int_min a b = Z.min a b <-> a = b).
Proof.
  destruct (int_min_cases a b) as [[H ->] | [H ->]]; lia.
Qed.

(* ------------------------------------------------------------------------- *)
(** * core/math.h: [int_min] on operand expressions                          *)
(* ------------------------------------------------------------------------- *)

Section MacroExprFacts.

Import MacroExpr.

(** With operands free of side effects the expansion yields [int_min] of
    their values and leaves the state alone, whichever operand is evaluated
    first. *)
Lemma int_min_expr_pure {St : Type} (a_first : bool) (a b : Z) (s : St) :
  int_min_expr a_first (pure a) (pure b) s = (int_min a b, s).
Proof.
  unfold int_min_expr, eval_lt, pure, int_min, c_cond.
  destruct a_first; cbn; destruct (c_lt a b =? 0); reflexivity.
Qed.


(** X8: with the operand [i++] the result need not be a value that was
    compared.  For an [int] variable [i] that can be incremented twice and an
    operand [b] without side effects, [int_min(i++, b)] yields [b] and leaves
    [i + 1] when [i < b]; otherwise it yields [i + 1], which is neither of the
    compared values [i] and [b], and leaves [i + 2]. *)
Theorem int_min_post_inc (a_first : bool) (i b : Z) :
  is_int i = true -> is_int (i + 2) = true -> is_int b = true ->
  (i < b -> int_min_expr a_first post_inc (pure b) i = (b, i + 1)) /\
  (b <= i ->
   int_min_expr a_first post_inc (pure b) i = (i + 1, i + 2) /\
   i + 1 <> i /\ i + 1 <> b) /\
  is_int (fst (int_min_expr a_first post_inc (pure b) i)) = true /\
  is_int (snd (int_min_expr a_first post_inc (pure b) i)) = true.
Proof.
  intros Hi Hi2 Hb.
  assert (Hi1 : is_int (i + 1) = true)
    by (apply is_int_iff; apply is_int_iff in Hi, Hi2; lia).
  assert (Hlt : i < b ->
                int_min_expr a_first post_inc (pure b) i = (b, i + 1)).
  { intros H. unfold int_min_expr, eval_lt, post_inc, pure.
    destruct a_first; rewrite (c_lt_true _ _ H); reflexivity. }
  assert (Hge : b <= i ->
                int_min_expr a_first post_inc (pure b) i = (i + 1, i + 2)).
  { intros H. unfold int_min_expr, eval_lt, post_inc, pure.
    destruct a_first; rewrite (c_lt_false _ _ H); cbn;
      f_equal; lia. }
  split; [exact Hlt |].
  split; [intros H; split; [auto | lia] |].
  destruct (Z.lt_ge_cases i b) as [H | H].
  - rewrite (Hlt H). cbn [fst snd]. auto.
  - rewrite (Hge H). cbn [fst snd]. auto.
Qed.

Lemma int_min_post_inc_witness :
  int_min_expr true post_inc (pure 3) 5 = (6, 7) /\
  int_min_expr false post_inc (pure 9) 5 = (9, 6).
Proof.
  split.
  - apply (proj1 (proj2 (int_min_post_inc true 5 3 eq_refl eq_refl eq_refl)))
      (* 3 <= 5 *).
    lia.
  - apply (proj1 (int_min_post_inc false 5 9 eq_refl eq_refl eq_refl)). lia.
Defined.

End MacroExprFacts.

(* ------------------------------------------------------------------------- *)
(** * core/math.h: the replacement text on [float] operands                  *)
(* ------------------------------------------------------------------------- *)

Lemma SFltb_nan_r (x : float) : SFltb x S754_nan = false.
Proof. destruct x; reflexivity. Qed.

Lemma SFltb_nan_l (x : float) : SFltb S754_nan x = false.
Proof. destruct x; reflexivity. Qed.

(** X9: on [float] operands a NaN decides by its position: a comparison with
    a NaN is false, so the first operand is returned.  [int_min(x, NaN)] is
    [x] and [int_min(NaN, x)] is NaN; the two orders of the operands agree
    only when [x] is itself a NaN. *)
Theorem int_min_on_float_nan (x : float) :
  int_min_on_float x S754_nan = x /\
  int_min_on_float S754_nan x = S754_nan /\
  (int_min_on_float x S754_nan = int_min_on_float S754_nan x <->
   x = S754_nan).
Proof.
  assert (H1 : int_min_on_float x S754_nan = x)
    by (unfold int_min_on_float, c_flt; now rewrite SFltb_nan_r).
  assert (H2 : int_min_on_float S754_nan x = S754_nan)
    by (unfold int_min_on_float, c_flt; now rewrite SFltb_nan_l).
  rewrite H1, H2. repeat split; auto.
Qed.

(** X10: on [float] operands that compare equal the first operand is
    returned, so the result depends on the order of the operands where equal
    does not mean identical: of a positive and a negative zero, [int_min]
    returns whichever is written first. *)
Theorem int_min_on_float_tie (a b : float) :
  SFcompare a b = Some Eq -> int_min_on_float a b = a.
Proof.
  intros H. unfold int_min_on_float, c_flt, SFltb. rewrite H. reflexivity.
Qed.

Lemma int_min_on_float_tie_witness :
  int_min_on_float (S754_zero false) (S754_zero true) = S754_zero false /\
  int_min_on_float (S754_zero true) (S754_zero false) = S754_zero true.
Proof.
  split.
  - apply (int_min_on_float_tie (S754_zero false) (S754_zero true)). reflexivity.
  - apply (int_min_on_float_tie (S754_zero true) (S754_zero false)). reflexivity.
Defined.
